(** * FocusManager (ckeditor5 utils): a shallow embedding and its properties

    The class under study is [utils.FocusManager] (src/unnamed/part_000).
    It keeps four fields ([isFocused], [_elements], [_nextEventLoopTimeout],
    [_focusedElement]) and talks to three collaborators that live outside
    the file: the DOM emitter mixin ([listenTo] / [stopListening]), the
    observable mixin (the [isFocused] property) and the host's timer
    facility ([setTimeout] / [clearTimeout]).  The collaborators are
    modelled as explicit parts of a [World]; the four methods of the class
    are transcribed line by line in a small state-and-exception monad. *)

From Stdlib Require Import String List ZArith Bool Arith Lia.
Import ListNotations.

(** ** Data *)

(** DOM elements are opaque handles compared by identity ([===]). *)
Definition Element := nat.

(** Handles returned by [setTimeout]. *)
Definition TimerId := nat.

Inductive CKEditorError : Type :=
| MkCKEditorError (message : string).

(** The two DOM events the manager listens to. *)
Inductive EventName : Type := focus | blur.

(** The two closures that [add] hands to [listenTo]:
    [() => this._focus( element )] and [() => this._blur()]. *)
Inductive Listener : Type :=
| OnFocus (element : Element)
| OnBlur.

(** The only closure ever handed to [setTimeout]:
    [() => { this._focusedElement = null; this.isFocused = false; }]. *)
Inductive Task : Type := FinalizeBlur.

(** The fields of a [FocusManager] instance. *)
Record FocusManager : Type := mkFocusManager {
  isFocused : bool;
  _elements : list Element;
  _nextEventLoopTimeout : option TimerId;
  _focusedElement : option Element
}.

(** The instance together with the parts of its environment it acts upon. *)
Record World : Type := mkWorld {
  this : FocusManager;
  (** callbacks registered through [listenTo], oldest first *)
  subscriptions : list (Element * EventName * Listener);
  (** tasks scheduled through [setTimeout] and not yet run or cleared,
      oldest first *)
  timers : list (TimerId * Task);
  (** the handle the next [setTimeout] call returns *)
  nextTimerId : TimerId;
  (** the values carried by the [change:isFocused] notifications fired so
      far, oldest first *)
  changes : list bool
}.

(** ** A state-and-exception monad

    A JavaScript call either completes normally or throws; in both cases
    the mutations made so far persist. *)

Inductive Completion (A : Type) : Type :=
| Normal (a : A)
| Throw (e : CKEditorError).

Arguments Normal {A} a.
Arguments Throw {A} e.

Definition M (A : Type) : Type := World -> Completion A * World.

Definition ret {A} (a : A) : M A := fun w => (Normal a, w).

Definition bind {A B} (m : M A) (k : A -> M B) : M B :=
  fun w =>
    match m w with
    | (Normal a, w') => k a w'
    | (Throw e, w') => (Throw e, w')
    end.

Definition throw {A} (e : CKEditorError) : M A := fun w => (Throw e, w).

Definition get : M World := fun w => (Normal w, w).

Definition modify (f : World -> World) : M unit := fun w => (Normal tt, f w).

Declare Scope js_scope.
Delimit Scope js_scope with js.
Notation "x <- c1 ;; c2" := (bind c1 (fun x => c2))
  (at level 61, c1 at next level, right associativity) : js_scope.
Notation "c1 ;; c2" := (bind c1 (fun _ => c2))
  (at level 61, right associativity) : js_scope.
Open Scope js_scope.

(** ** Field updates *)

Definition with_this (f : FocusManager -> FocusManager) (w : World) : World :=
  mkWorld (f (this w)) (subscriptions w) (timers w) (nextTimerId w) (changes w).

Definition assign_elements (l : list Element) : M unit :=
  modify (with_this (fun m =>
    mkFocusManager (isFocused m) l (_nextEventLoopTimeout m) (_focusedElement m))).

Definition assign_nextEventLoopTimeout (h : option TimerId) : M unit :=
  modify (with_this (fun m =>
    mkFocusManager (isFocused m) (_elements m) h (_focusedElement m))).

Definition assign_focusedElement (e : option Element) : M unit :=
  modify (with_this (fun m =>
    mkFocusManager (isFocused m) (_elements m) (_nextEventLoopTimeout m) e)).

(** Modelled from the spec: the observable-property capability
    (observablemixin.js is not among the sources).  [isFocused] is "an
    externally observable property; any consumer may subscribe to its
    changes"; an assignment that does not change the value is not a
    transition and notifies nobody. *)
Definition assign_isFocused (b : bool) : M unit :=
  modify (fun w =>
    if Bool.eqb (isFocused (this w)) b then w
    else
      let m := this w in
      mkWorld
        (mkFocusManager b (_elements m) (_nextEventLoopTimeout m) (_focusedElement m))
        (subscriptions w) (timers w) (nextTimerId w) (changes w ++ [b])).

(** ** Collaborators *)

(** [Array.prototype.indexOf]: position of the first identical entry, or
    [-1]. *)
Fixpoint indexOf (element : Element) (l : list Element) : Z :=
  match l with
  | [] => (-1)%Z
  | x :: r =>
      if Nat.eqb x element then 0%Z
      else
        let i := indexOf element r in
        if (i <? 0)%Z then (-1)%Z else (i + 1)%Z
  end.

(** [Array.prototype.slice( begin, end )] for the arguments [remove] passes
    ([begin >= 0], [end = 1]): a NEW array holding the entries at positions
    [begin <= i < end]; the receiver is not modified. *)
Definition slice (l : list Element) (start stop : Z) : list Element :=
  let b := Z.to_nat (Z.min (Z.max start 0) (Z.of_nat (length l))) in
  let e := Z.to_nat (Z.min (Z.max stop 0) (Z.of_nat (length l))) in
  firstn (e - b) (skipn b l).

(** [Array.prototype.push]. *)
Definition push (element : Element) : M unit :=
  w <- get ;; assign_elements (_elements (this w) ++ [element]).

(** The host's [setTimeout( task, 0 )], the spec's "deferred-execution
    facility": queues the task behind those already waiting and returns a
    handle never handed out before. *)
Definition setTimeout (t : Task) : M TimerId :=
  fun w =>
    let id := nextTimerId w in
    (Normal id,
     mkWorld (this w) (subscriptions w) (timers w ++ [(id, t)]) (S id) (changes w)).

Definition has_id (id : TimerId) (p : TimerId * Task) : bool := Nat.eqb (fst p) id.

(** The host's [clearTimeout( handle )]: drops the task with that handle
    if it is still waiting; [null] and handles of tasks that already ran
    are ignored. *)
Definition clearTimeout (h : option TimerId) : M unit :=
  match h with
  | None => ret tt
  | Some id =>
      modify (fun w =>
        mkWorld (this w) (subscriptions w)
                (filter (fun p => negb (has_id id p)) (timers w))
                (nextTimerId w) (changes w))
  end.

(** Modelled from the spec: the event-subscription capability
    (domemittermixin.js is not among the sources).  [add] "subscribes to
    that element's focus-gain and focus-lost notifications". *)
Definition listenTo (element : Element) (ev : EventName) (cb : Listener) : M unit :=
  modify (fun w =>
    mkWorld (this w) (subscriptions w ++ [(element, ev, cb)]) (timers w)
            (nextTimerId w) (changes w)).

Definition on_element (element : Element) (s : Element * EventName * Listener) : bool :=
  Nat.eqb (fst (fst s)) element.

(** Modelled from the spec: [remove] "cancels the element's event
    subscriptions" (domemittermixin.js is not among the sources). *)
Definition stopListening (element : Element) : M unit :=
  modify (fun w =>
    mkWorld (this w)
            (filter (fun s => negb (on_element element s)) (subscriptions w))
            (timers w) (nextTimerId w) (changes w)).

(** ** The class *)

Module FocusManager.

(** [constructor()] *)
Definition constructor : FocusManager :=
  mkFocusManager false [] None None.

(** [_focus( element )] *)
Definition _focus (element : Element) : M unit :=
  w <- get ;;
  clearTimeout (_nextEventLoopTimeout (this w)) ;;
  assign_focusedElement (Some element) ;;
  assign_isFocused true.

(** [_blur()].  The method declares no parameter; an argument passed by a
    caller is ignored. *)
Definition _blur : M unit :=
  id <- setTimeout FinalizeBlur ;;
  assign_nextEventLoopTimeout (Some id).

Definition same_element (element : Element) (o : option Element) : bool :=
  match o with
  | Some x => Nat.eqb element x
  | None => false
  end.

(** [add( element )] *)
Definition add (element : Element) : M unit :=
  w <- get ;;
  if (indexOf element (_elements (this w)) >=? 0)%Z then
    throw (MkCKEditorError "focusManager-add-element-already-exist")
  else
    listenTo element focus (OnFocus element) ;;
    listenTo element blur OnBlur ;;
    push element.

(** [remove( element )] *)
Definition remove (element : Element) : M unit :=
  w <- get ;;
  (if same_element element (_focusedElement (this w)) then _blur else ret tt) ;;
  w' <- get ;;
  let elementIndex := indexOf element (_elements (this w')) in
  if (elementIndex >? -1)%Z then
    stopListening element ;;
    (* the result of [slice] is dropped: [_elements] keeps its entries *)
    let _ := slice (_elements (this w')) elementIndex 1 in
    ret tt
  else ret tt.

End FocusManager.

Import FocusManager.

(** ** The environment at work *)

(** Running a subscribed closure. *)
Definition invoke (l : Listener) : M unit :=
  match l with
  | OnFocus element => _focus element
  | OnBlur => _blur
  end.

Fixpoint invokeAll (ls : list Listener) : M unit :=
  match ls with
  | [] => ret tt
  | l :: r => invoke l ;; invokeAll r
  end.

Definition EventName_eqb (a b : EventName) : bool :=
  match a, b with
  | focus, focus | blur, blur => true
  | _, _ => false
  end.

Fixpoint listenersFor (element : Element) (ev : EventName)
         (subs : list (Element * EventName * Listener)) : list Listener :=
  match subs with
  | [] => []
  | (e, n, cb) :: r =>
      if Nat.eqb e element && EventName_eqb n ev
      then cb :: listenersFor element ev r
      else listenersFor element ev r
  end.

(** A focus-gain ([focus]) or focus-lost ([blur]) notification reaching
    [element]: every closure subscribed on it for that event runs, in
    subscription order. *)
Definition dispatchEvent (element : Element) (ev : EventName) : M unit :=
  w <- get ;; invokeAll (listenersFor element ev (subscriptions w)).

(** Running a scheduled closure. *)
Definition runTask (t : Task) : M unit :=
  match t with
  | FinalizeBlur => assign_focusedElement None ;; assign_isFocused false
  end.

(** One turn of the host's task queue: the oldest waiting task, if any,
    leaves the queue and runs. *)
Definition runNextTimer : M unit :=
  w <- get ;;
  match timers w with
  | [] => ret tt
  | (_, t) :: rest =>
      modify (fun w =>
        mkWorld (this w) (subscriptions w) rest (nextTimerId w) (changes w)) ;;
      runTask t
  end.

(** ** Histories *)

Inductive Action : Type :=
| Add (element : Element)
| Remove (element : Element)
| Notify (ev : EventName) (element : Element)
| Tick.

Definition perform (a : Action) : M unit :=
  match a with
  | Add e => add e
  | Remove e => remove e
  | Notify ev e => dispatchEvent e ev
  | Tick => runNextTimer
  end.

(** The world after an action, whether it returned or threw. *)
Definition exec (a : Action) (w : World) : World := snd (perform a w).

Definition run (acts : list Action) (w : World) : World :=
  fold_left (fun w a => exec a w) acts w.

(** A freshly constructed manager in an environment with nothing
    subscribed and nothing scheduled. *)
Definition newWorld : World := mkWorld constructor [] [] 0 [].

Inductive reachable : World -> Prop :=
| reach_new : reachable newWorld
| reach_step (a : Action) (w : World) : reachable w -> reachable (exec a w).

(** ** Vocabulary of the properties *)

(** [element] is registered and listened to: both closures of [add] are
    subscribed on it, once. *)
Definition subscribed (element : Element) (w : World) : Prop :=
  listenersFor element focus (subscriptions w) = [OnFocus element] /\
  listenersFor element blur (subscriptions w) = [OnBlur].

Definition pending (id : TimerId) (w : World) : Prop :=
  In id (map fst (timers w)).

Definition focusedElement (w : World) : option Element := _focusedElement (this w).
Definition focused (w : World) : bool := isFocused (this w).
Definition tracked (w : World) : list Element := _elements (this w).
Definition handle (w : World) : option TimerId := _nextEventLoopTimeout (this w).

(** The first half of [remove]: the [_blur] call guarded by
    [element === this._focusedElement]. *)
Definition after_remove_blur (element : Element) (w : World) : World :=
  if same_element element (focusedElement w) then snd (_blur w) else w.

(** The task queue runs until nothing scheduled is left, no other
    notification arriving meanwhile. *)
Definition settle (w : World) : World :=
  run (repeat Tick (length (timers w))) w.

(** [element] is still listed but nothing is subscribed on it any more. *)
Definition deaf (element : Element) (w : World) : Prop :=
  In element (tracked w) /\
  (forall s, In s (subscriptions w) -> on_element element s = false).

(** The derived boolean agrees with the back-reference. *)
Definition consistent (w : World) : Prop :=
  focused w = match focusedElement w with Some _ => true | None => false end.

(** What every history maintains: the boolean agrees with the
    back-reference; the focused element is in the list; closures are
    subscribed only on listed elements, and only the two that [add]
    creates; handles of waiting tasks were handed out already. *)
Definition well_formed (w : World) : Prop :=
  consistent w /\
  (forall e, focusedElement w = Some e -> In e (tracked w)) /\
  (forall x ev cb, In (x, ev, cb) (subscriptions w) ->
     In x (tracked w) /\
     ((ev = focus /\ cb = OnFocus x) \/ (ev = blur /\ cb = OnBlur))) /\
  (forall id, pending id w -> id < nextTimerId w).

(** The nested-elements history: element 2 sits inside element 1 and both
    are registered, so a focus change below element 2 reaches the capturing
    listeners of both, outermost first. *)
Definition nested_focus_then_blur : list Action :=
  [Add 1; Add 2; Notify focus 1; Notify focus 2; Notify blur 1; Notify blur 2].

(** A waiting task whose handle is not the recorded one. *)
Definition unrecorded (id : TimerId) (w : World) : Prop :=
  pending id w /\ handle w <> Some id /\ id < nextTimerId w.

(** [_nextEventLoopTimeout] is [null] as long as nothing was ever
    scheduled, and the handle of the latest [setTimeout] call after that. *)
Definition handle_is_latest (w : World) : Prop :=
  match handle w with
  | None => timers w = [] /\ nextTimerId w = 0
  | Some id => nextTimerId w = S id
  end.

(** Each element has either exactly the two closures of [add] subscribed
    on it, and is listed, or nothing at all. *)
Definition subscribed_or_silent (element : Element) (w : World) : Prop :=
  (subscribed element w /\ In element (tracked w)) \/
  (forall ev, listenersFor element ev (subscriptions w) = []).

(** ** Proof steps used throughout *)

(** Name every field of a world. *)
Ltac open_world w :=
  let f := fresh "f" in let els := fresh "els" in let h := fresh "h" in
  let fe := fresh "fe" in let subs := fresh "subs" in let ts := fresh "ts" in
  let n := fresh "n" in let ch := fresh "ch" in
  destruct w as [[f els h fe] subs ts n ch].

(** The four parts of [well_formed]. *)
Ltac wf_split := split; [|split; [|split]].

(** ** Sanity checks on concrete histories *)

Example indexOf_found : indexOf 7 [5; 7; 9; 7] = 1%Z.
Proof. reflexivity. Qed.

Example indexOf_missing : indexOf 4 [5; 7; 9] = (-1)%Z.
Proof. reflexivity. Qed.

Example slice_keeps_receiver : slice [5; 7; 9] 0 1 = [5] /\ slice [5; 7; 9] 1 1 = [].
Proof. split; reflexivity. Qed.

Example focus_then_blur_then_tick :
  let w := run [Add 1; Notify focus 1; Notify blur 1] newWorld in
  focused w = true /\ timers w = [(0, FinalizeBlur)] /\
  focused (exec Tick w) = false /\ changes (exec Tick w) = [true; false].
Proof. repeat split; reflexivity. Qed.

(** ** Basic facts about the collaborators *)

Lemma indexOf_lower_bound (element : Element) (l : list Element) :
  (-1 <= indexOf element l)%Z.
Proof.
  induction l as [|x r IH]; simpl; [lia|].
  destruct (Nat.eqb x element); [lia|].
  destruct (indexOf element r <? 0)%Z eqn:Hneg; lia.
Qed.

Lemma indexOf_In (element : Element) (l : list Element) :
  In element l <-> (0 <= indexOf element l)%Z.
Proof.
  induction l as [|x r IH]; simpl.
  - split; [tauto | lia].
  - destruct (Nat.eqb x element) eqn:Hx.
    + apply Nat.eqb_eq in Hx. split; [lia | auto].
    + apply Nat.eqb_neq in Hx.
      destruct (indexOf element r <? 0)%Z eqn:Hneg.
      * apply Z.ltb_lt in Hneg. split; [|lia].
        intros [H|H]; [contradiction|]. apply IH in H. lia.
      * apply Z.ltb_ge in Hneg. split; [lia|].
        intros _. right. apply IH. exact Hneg.
Qed.

Lemma indexOf_geb (element : Element) (l : list Element) :
  (indexOf element l >=? 0)%Z = true <-> In element l.
Proof. rewrite Z.geb_le. symmetry. apply indexOf_In. Qed.

Lemma indexOf_gtb (element : Element) (l : list Element) :
  (indexOf element l >? -1)%Z = true <-> In element l.
Proof. rewrite Z.gtb_lt, indexOf_In. lia. Qed.

Lemma indexOf_geb_false (element : Element) (l : list Element) :
  (indexOf element l >=? 0)%Z = false <-> ~ In element l.
Proof.
  rewrite <- indexOf_geb. destruct (indexOf element l >=? 0)%Z; split; congruence.
Qed.

Lemma indexOf_gtb_false (element : Element) (l : list Element) :
  (indexOf element l >? -1)%Z = false <-> ~ In element l.
Proof.
  rewrite <- indexOf_gtb. destruct (indexOf element l >? -1)%Z; split; congruence.
Qed.

Lemma listenersFor_app (element : Element) (ev : EventName)
      (s1 s2 : list (Element * EventName * Listener)) :
  listenersFor element ev (s1 ++ s2) =
  listenersFor element ev s1 ++ listenersFor element ev s2.
Proof.
  induction s1 as [|[[e n] cb] r IH]; simpl; [reflexivity|].
  destruct (Nat.eqb e element && EventName_eqb n ev); simpl; now rewrite IH.
Qed.

Lemma listenersFor_In (element : Element) (ev : EventName) (cb : Listener)
      (subs : list (Element * EventName * Listener)) :
  In cb (listenersFor element ev subs) -> In (element, ev, cb) subs.
Proof.
  induction subs as [|[[e n] c] r IH]; simpl; [tauto|].
  destruct (Nat.eqb e element) eqn:He; simpl; [|auto].
  destruct (EventName_eqb n ev) eqn:Hn; simpl; [|auto].
  apply Nat.eqb_eq in He. subst e.
  assert (n = ev) by (destruct n, ev; simpl in Hn; congruence). subst n.
  intros [H|H]; [left; congruence | right; auto].
Qed.

Lemma listenersFor_none (element : Element) (ev : EventName)
      (subs : list (Element * EventName * Listener)) :
  (forall s, In s subs -> on_element element s = false) ->
  listenersFor element ev subs = [].
Proof.
  induction subs as [|[[e n] c] r IH]; simpl; [reflexivity|].
  intros H. assert (He : Nat.eqb e element = false) by (apply (H (e, n, c)); now left).
  rewrite He. simpl. apply IH. intros s Hs. apply H. now right.
Qed.

Lemma stopped_none (element : Element) (subs : list (Element * EventName * Listener)) :
  forall s, In s (filter (fun s => negb (on_element element s)) subs) ->
            on_element element s = false.
Proof.
  intros s Hs. apply filter_In in Hs. destruct Hs as [_ Hs].
  now apply negb_true_iff in Hs.
Qed.

Lemma listenersFor_stopped_other (element other : Element) (ev : EventName)
      (subs : list (Element * EventName * Listener)) :
  other <> element ->
  listenersFor other ev (filter (fun s => negb (on_element element s)) subs) =
  listenersFor other ev subs.
Proof.
  intros Hne. induction subs as [|[[e n] c] r IH]; simpl; [reflexivity|].
  unfold on_element at 1. simpl.
  destruct (Nat.eqb e element) eqn:He; simpl.
  - apply Nat.eqb_eq in He. subst e.
    assert (Ho : Nat.eqb element other = false) by (apply Nat.eqb_neq; congruence).
    rewrite Ho. simpl. exact IH.
  - destruct (Nat.eqb e other && EventName_eqb n ev); now rewrite IH.
Qed.

Lemma cleared_not_pending (id : TimerId) (ts : list (TimerId * Task)) :
  ~ In id (map fst (filter (fun p => negb (has_id id p)) ts)).
Proof.
  intros H. apply in_map_iff in H. destruct H as [[i t] [Hi Hin]].
  apply filter_In in Hin. destruct Hin as [_ Hneq]. simpl in Hi. subst i.
  unfold has_id in Hneq. simpl in Hneq. now rewrite Nat.eqb_refl in Hneq.
Qed.

Lemma cleared_others_stay (id other : TimerId) (ts : list (TimerId * Task)) :
  other <> id ->
  In other (map fst ts) ->
  In other (map fst (filter (fun p => negb (has_id id p)) ts)).
Proof.
  intros Hne H. apply in_map_iff in H. destruct H as [[i t] [Hi Hin]].
  simpl in Hi. subst i. apply in_map_iff. exists (other, t). split; [reflexivity|].
  apply filter_In. split; [assumption|]. unfold has_id. simpl.
  apply negb_true_iff. now apply Nat.eqb_neq.
Qed.

(** ** What each method does to the world *)

Lemma _blur_effect (w : World) :
  _blur w =
  (Normal tt,
   mkWorld
     (mkFocusManager (focused w) (tracked w) (Some (nextTimerId w)) (focusedElement w))
     (subscriptions w) (timers w ++ [(nextTimerId w, FinalizeBlur)])
     (S (nextTimerId w)) (changes w)).
Proof. reflexivity. Qed.

Lemma _focus_effect (element : Element) (w : World) :
  _focus element w =
  (Normal tt,
   mkWorld
     (mkFocusManager true (tracked w) (handle w) (Some element))
     (subscriptions w)
     (match handle w with
      | Some id => filter (fun p => negb (has_id id p)) (timers w)
      | None => timers w
      end)
     (nextTimerId w)
     (if focused w then changes w else changes w ++ [true])).
Proof. open_world w. destruct h, f; reflexivity. Qed.

Lemma runTask_effect (t : Task) (w : World) :
  runTask t w =
  (Normal tt,
   mkWorld
     (mkFocusManager false (tracked w) (handle w) None)
     (subscriptions w) (timers w) (nextTimerId w)
     (if focused w then changes w ++ [false] else changes w)).
Proof. open_world w. destruct t, f; reflexivity. Qed.

Lemma runNextTimer_effect (w : World) :
  runNextTimer w =
  match timers w with
  | [] => (Normal tt, w)
  | (_, t) :: rest =>
      (Normal tt,
       mkWorld
         (mkFocusManager false (tracked w) (handle w) None)
         (subscriptions w) rest (nextTimerId w)
         (if focused w then changes w ++ [false] else changes w))
  end.
Proof. open_world w. destruct ts as [|[i t] rest]; [reflexivity|]. destruct t, f; reflexivity. Qed.

Lemma add_effect (element : Element) (w : World) :
  add element w =
  if (indexOf element (tracked w) >=? 0)%Z
  then (Throw (MkCKEditorError "focusManager-add-element-already-exist"), w)
  else
    (Normal tt,
     mkWorld
       (mkFocusManager (focused w) (tracked w ++ [element]) (handle w) (focusedElement w))
       (subscriptions w ++ [(element, focus, OnFocus element); (element, blur, OnBlur)])
       (timers w) (nextTimerId w) (changes w)).
Proof.
  open_world w. unfold add, bind, get, tracked. simpl.
  destruct (indexOf element els >=? 0)%Z; [reflexivity|].
  cbn. now rewrite <- app_assoc.
Qed.

Lemma remove_effect (element : Element) (w : World) :
  remove element w =
  let w' := after_remove_blur element w in
  (Normal tt,
   if (indexOf element (tracked w) >? -1)%Z
   then mkWorld (this w')
                (filter (fun s => negb (on_element element s)) (subscriptions w'))
                (timers w') (nextTimerId w') (changes w')
   else w').
Proof.
  open_world w. unfold remove, after_remove_blur, bind, get, tracked, focusedElement. simpl.
  destruct (same_element element fe); cbn;
    destruct (indexOf element els >? -1)%Z; reflexivity.
Qed.

Lemma same_element_true (element : Element) (o : option Element) :
  same_element element o = true <-> o = Some element.
Proof.
  destruct o as [x|]; simpl; [|split; congruence].
  rewrite Nat.eqb_eq. split; congruence.
Qed.

Lemma same_element_false (element : Element) (o : option Element) :
  same_element element o = false <-> o <> Some element.
Proof.
  rewrite <- same_element_true. destruct (same_element element o); split; congruence.
Qed.

(** ** The invariant of all histories *)

Lemma well_formed_new : well_formed newWorld.
Proof.
  wf_split.
  - reflexivity.
  - intros e He. discriminate He.
  - intros x ev cb H. destruct H.
  - intros id H. destruct H.
Qed.

Lemma well_formed_blur (w : World) :
  well_formed w -> well_formed (snd (_blur w)).
Proof.
  intros (Hc & Hf & Hs & Ht). rewrite _blur_effect. wf_split.
  - exact Hc.
  - exact Hf.
  - exact Hs.
  - intros id Hid. unfold pending in *. simpl in *.
    rewrite map_app in Hid. apply in_app_or in Hid. destruct Hid as [Hid|Hid].
    + apply Ht in Hid. lia.
    + simpl in Hid. destruct Hid as [<-|[]]. lia.
Qed.

Lemma well_formed_focus (element : Element) (w : World) :
  well_formed w -> In element (tracked w) -> well_formed (snd (_focus element w)).
Proof.
  intros (Hc & Hf & Hs & Ht) Hin. rewrite _focus_effect. wf_split.
  - reflexivity.
  - intros e He. unfold focusedElement in He. simpl in He.
    injection He as <-. exact Hin.
  - exact Hs.
  - intros id Hid. apply Ht. unfold pending in *. simpl in *.
    destruct (handle w) as [h|]; [|assumption].
    apply in_map_iff in Hid. destruct Hid as [p [Hp Hin']].
    apply filter_In in Hin'. apply in_map_iff. exists p. tauto.
Qed.

Lemma invokeAll_frame (ls : list Listener) :
  forall w,
    fst (invokeAll ls w) = Normal tt /\
    subscriptions (snd (invokeAll ls w)) = subscriptions w /\
    tracked (snd (invokeAll ls w)) = tracked w.
Proof.
  induction ls as [|l r IH]; intros w; [simpl; auto|].
  destruct l as [e|]; cbn [invokeAll invoke]; unfold bind;
    [rewrite _focus_effect | rewrite _blur_effect]; cbv beta iota;
    match goal with |- context [invokeAll r ?w'] => destruct (IH w') as (H1 & H2 & H3) end;
    rewrite H1, H2, H3; auto.
Qed.

Lemma well_formed_invokeAll (ls : list Listener) :
  forall w,
    well_formed w ->
    (forall x, In (OnFocus x) ls -> In x (tracked w)) ->
    well_formed (snd (invokeAll ls w)).
Proof.
  induction ls as [|l r IH]; intros w Hw Hls; [assumption|].
  destruct l as [e|]; cbn [invokeAll invoke]; unfold bind at 1.
  - assert (He : In e (tracked w)) by (apply Hls; now left).
    pose proof (well_formed_focus e w Hw He) as Hw'.
    rewrite _focus_effect in *. cbv beta iota. apply IH; [exact Hw'|].
    intros x Hx. apply Hls. now right.
  - pose proof (well_formed_blur w Hw) as Hw'.
    rewrite _blur_effect in *. cbv beta iota. apply IH; [exact Hw'|].
    intros x Hx. apply Hls. now right.
Qed.

Lemma dispatchEvent_unfold (element : Element) (ev : EventName) (w : World) :
  dispatchEvent element ev w =
  invokeAll (listenersFor element ev (subscriptions w)) w.
Proof. reflexivity. Qed.

Lemma well_formed_exec (a : Action) (w : World) :
  well_formed w -> well_formed (exec a w).
Proof.
  intros Hw. unfold exec. destruct a as [e|e|ev e|]; simpl.
  - (* add *)
    rewrite add_effect. destruct (indexOf e (tracked w) >=? 0)%Z eqn:Hi; [exact Hw|].
    destruct Hw as (Hc & Hf & Hs & Ht). wf_split.
    + exact Hc.
    + intros x Hx. unfold tracked. simpl. apply in_or_app. left. now apply Hf.
    + intros x ev cb H. unfold tracked. simpl in *.
      apply in_app_or in H. destruct H as [H|H].
      * destruct (Hs _ _ _ H) as [H1 H2]. split; [apply in_or_app; now left | exact H2].
      * simpl in H. destruct H as [H|[H|[]]]; injection H as <- <- <-;
          (split; [apply in_or_app; right; now left | auto]).
    + exact Ht.
  - (* remove *)
    rewrite remove_effect. simpl.
    assert (Hw' : well_formed (after_remove_blur e w)).
    { unfold after_remove_blur. destruct (same_element e (focusedElement w));
        [now apply well_formed_blur | exact Hw]. }
    destruct (indexOf e (tracked w) >? -1)%Z; [|exact Hw'].
    destruct Hw' as (Hc & Hf & Hs & Ht). wf_split.
    + exact Hc.
    + exact Hf.
    + intros x ev cb H. simpl in H. apply filter_In in H. destruct H as [H _].
      exact (Hs _ _ _ H).
    + exact Ht.
  - (* a notification *)
    rewrite dispatchEvent_unfold. apply well_formed_invokeAll; [exact Hw|].
    intros x Hx. apply listenersFor_In in Hx.
    destruct Hw as (_ & _ & Hs & _). destruct (Hs _ _ _ Hx) as [Hin Hk].
    destruct Hk as [[_ Hcb]|[_ Hcb]]; [|discriminate Hcb].
    injection Hcb as ->. exact Hin.
  - (* a turn of the task queue *)
    rewrite runNextTimer_effect. destruct (timers w) as [|[i t] rest] eqn:Hts; [exact Hw|].
    destruct Hw as (Hc & Hf & Hs & Ht). wf_split.
    + reflexivity.
    + intros x Hx. discriminate Hx.
    + exact Hs.
    + intros id Hid. apply Ht. unfold pending in *. rewrite Hts. simpl in *. now right.
Qed.

Lemma reachable_well_formed (w : World) : reachable w -> well_formed w.
Proof.
  induction 1 as [|a w Hr IH]; [apply well_formed_new | now apply well_formed_exec].
Qed.

Lemma run_app (a1 a2 : list Action) (w : World) :
  run (a1 ++ a2) w = run a2 (run a1 w).
Proof. unfold run. apply fold_left_app. Qed.

Lemma reachable_run (acts : list Action) :
  forall w, reachable w -> reachable (run acts w).
Proof.
  induction acts as [|a r IH]; intros w Hw; simpl; [assumption|].
  apply IH. now constructor.
Qed.

Lemma reachable_history (acts : list Action) : reachable (run acts newWorld).
Proof. apply reachable_run. constructor. Qed.

(** ** Notifications on a subscribed element, and the task queue *)

Lemma notify_blur_subscribed (element : Element) (w : World) :
  subscribed element w -> dispatchEvent element blur w = _blur w.
Proof.
  intros [_ Hb]. rewrite dispatchEvent_unfold, Hb. reflexivity.
Qed.

Lemma notify_focus_subscribed (element : Element) (w : World) :
  subscribed element w -> dispatchEvent element focus w = _focus element w.
Proof.
  intros [Hf _]. rewrite dispatchEvent_unfold, Hf.
  cbn [invokeAll invoke]. unfold bind. rewrite _focus_effect. reflexivity.
Qed.

Lemma notify_unsubscribed (element : Element) (ev : EventName) (w : World) :
  (forall s, In s (subscriptions w) -> on_element element s = false) ->
  dispatchEvent element ev w = (Normal tt, w).
Proof.
  intros H. rewrite dispatchEvent_unfold, (listenersFor_none element ev _ H). reflexivity.
Qed.

Lemma tick_head (id : TimerId) (t : Task) (rest : list (TimerId * Task)) (w : World) :
  timers w = (id, t) :: rest ->
  focused (exec Tick w) = false /\
  focusedElement (exec Tick w) = None /\
  timers (exec Tick w) = rest /\
  tracked (exec Tick w) = tracked w /\
  subscriptions (exec Tick w) = subscriptions w.
Proof.
  intros Hts. unfold exec. simpl. rewrite runNextTimer_effect, Hts. simpl. auto.
Qed.

Lemma settle_queue (n : nat) :
  forall w,
    length (timers w) = n ->
    timers (run (repeat Tick n) w) = [] /\
    (n <> 0 ->
     focused (run (repeat Tick n) w) = false /\
     focusedElement (run (repeat Tick n) w) = None).
Proof.
  induction n as [|n IH]; intros w Hlen.
  - simpl. split; [|congruence]. now apply length_zero_iff_nil.
  - destruct (timers w) as [|[id t] rest] eqn:Hts; [discriminate Hlen|].
    simpl in Hlen. injection Hlen as Hlen.
    destruct (tick_head id t rest w Hts) as (Hf & He & Hr & _).
    cbn [repeat run fold_left]. fold (run (repeat Tick n) (exec Tick w)).
    assert (Hlen' : length (timers (exec Tick w)) = n) by now rewrite Hr.
    destruct (IH _ Hlen') as [H1 H2]. split; [exact H1|]. intros _.
    destruct n as [|m]; [simpl; auto|]. apply H2. discriminate.
Qed.

Lemma settle_effect (w : World) :
  timers w <> [] ->
  focused (settle w) = false /\ focusedElement (settle w) = None /\ timers (settle w) = [].
Proof.
  intros Hne. unfold settle.
  destruct (settle_queue (length (timers w)) w eq_refl) as [H1 H2].
  assert (Hn : length (timers w) <> 0).
  { intros H0. apply Hne. now apply length_zero_iff_nil. }
  destruct (H2 Hn). auto.
Qed.

(** ** Handoff between siblings *)

(** C1.  Handoff between tracked siblings: with [E1] and [E2] registered
    and listened to and [E1] the focused element ([isFocused] true), a
    focus-lost notification for [E1] followed, before any scheduled task
    runs, by a focus-gain notification for [E2] keeps [isFocused] true
    after each of the two notifications and fires no [change:isFocused]
    notification at all; afterwards the focused element is [E2], and the
    task scheduled by the focus-lost notification has been cancelled. *)
Theorem handoff_keeps_isFocused (w : World) (E1 E2 : Element) :
  subscribed E1 w ->
  subscribed E2 w ->
  focusedElement w = Some E1 ->
  focused w = true ->
  let w1 := exec (Notify blur E1) w in
  let w2 := exec (Notify focus E2) w1 in
  (focused w1 = true /\ changes w1 = changes w) /\
  (focused w2 = true /\ changes w2 = changes w) /\
  focusedElement w2 = Some E2 /\
  ~ pending (nextTimerId w) w2.
Proof.
  intros H1 H2 Hfe Hf w1 w2.
  assert (E1w : w1 = snd (_blur w)).
  { unfold w1, exec. simpl. now rewrite (notify_blur_subscribed E1 w H1). }
  assert (H2' : subscribed E2 w1).
  { rewrite E1w, _blur_effect. exact H2. }
  assert (E2w : w2 = snd (_focus E2 w1)).
  { unfold w2, exec. simpl. now rewrite (notify_focus_subscribed E2 w1 H2'). }
  rewrite E2w, _focus_effect, E1w, _blur_effect. unfold focused, focusedElement, pending.
  simpl. unfold focused in Hf. rewrite Hf. repeat split.
  apply cleared_not_pending.
Qed.

Lemma handoff_keeps_isFocused_witness :
  let w := run [Add 1; Add 2; Notify focus 1] newWorld in
  let w1 := exec (Notify blur 1) w in
  let w2 := exec (Notify focus 2) w1 in
  (focused w1 = true /\ changes w1 = changes w) /\
  (focused w2 = true /\ changes w2 = changes w) /\
  focusedElement w2 = Some 2 /\
  ~ pending (nextTimerId w) w2.
Proof.
  exact (handoff_keeps_isFocused (run [Add 1; Add 2; Notify focus 1] newWorld) 1 2
           (conj eq_refl eq_refl) (conj eq_refl eq_refl) eq_refl eq_refl).
Defined.

(** ** Focus-lost notifications and the deferred task *)

(** C7, as stated, fails: being the focused element does not make [E]
    listened to.  After [add(1)], a focus-gain notification on element 1
    and [remove(1)], element 1 is still the focused-element reference
    (the task that [remove] scheduled has not run yet) but its closures
    are unsubscribed; a focus-lost notification for element 1 then runs
    nothing and schedules nothing. *)
Lemma focus_lost_on_removed_element_schedules_nothing :
  let w := run [Add 1; Notify focus 1; Remove 1] newWorld in
  let w1 := exec (Notify blur 1) w in
  reachable w /\
  focusedElement w = Some 1 /\
  w1 = w /\
  ~ (timers w1 = timers w ++ [(nextTimerId w, FinalizeBlur)] /\
     handle w1 = Some (nextTimerId w)).
Proof.
  split; [apply reachable_history|].
  split; [reflexivity|]. split; [reflexivity|].
  intros [H _]. vm_compute in H. discriminate H.
Qed.

(** C7, amended.  With [E] the focused element and still listened to
    (registered and not removed since), a focus-lost
    notification for [E] changes neither [isFocused] nor the
    focused-element reference and fires no change notification; it queues
    one finalize-blur task behind those already waiting and records its
    handle.  When that task runs (it is at the head of the queue and the
    queue takes a turn) the reference is cleared and [isFocused] is false;
    in particular this is the state once the queue has settled with no
    notification arriving meanwhile. *)
Theorem focus_lost_is_deferred (w : World) (E : Element) :
  subscribed E w ->
  focusedElement w = Some E ->
  let w1 := exec (Notify blur E) w in
  (focused w1 = focused w /\ focusedElement w1 = Some E /\ changes w1 = changes w) /\
  (timers w1 = timers w ++ [(nextTimerId w, FinalizeBlur)] /\
   handle w1 = Some (nextTimerId w)) /\
  (forall w2 rest,
     timers w2 = (nextTimerId w, FinalizeBlur) :: rest ->
     focused (exec Tick w2) = false /\ focusedElement (exec Tick w2) = None) /\
  (focused (settle w1) = false /\ focusedElement (settle w1) = None).
Proof.
  intros Hs Hfe w1.
  assert (E1 : w1 = snd (_blur w)).
  { unfold w1, exec. simpl. now rewrite (notify_blur_subscribed E w Hs). }
  assert (Hts : timers w1 = timers w ++ [(nextTimerId w, FinalizeBlur)]).
  { rewrite E1, _blur_effect. reflexivity. }
  split; [|split; [|split]].
  - rewrite E1, _blur_effect. simpl. auto.
  - split; [exact Hts|]. rewrite E1, _blur_effect. reflexivity.
  - intros w2 rest Hw2. destruct (tick_head _ _ _ w2 Hw2) as (Hf & He & _). auto.
  - assert (Hne : timers w1 <> []).
    { rewrite Hts. intros Hnil. apply app_eq_nil in Hnil. destruct Hnil as [_ Hnil].
      discriminate Hnil. }
    destruct (settle_effect w1 Hne) as (Hf & He & _). auto.
Qed.

Lemma focus_lost_is_deferred_witness :
  let w := run [Add 1; Notify focus 1] newWorld in
  let w1 := exec (Notify blur 1) w in
  (focused w1 = focused w /\ focusedElement w1 = Some 1 /\ changes w1 = changes w) /\
  (timers w1 = timers w ++ [(nextTimerId w, FinalizeBlur)] /\
   handle w1 = Some (nextTimerId w)) /\
  (forall w2 rest,
     timers w2 = (nextTimerId w, FinalizeBlur) :: rest ->
     focused (exec Tick w2) = false /\ focusedElement (exec Tick w2) = None) /\
  (focused (settle w1) = false /\ focusedElement (settle w1) = None).
Proof.
  exact (focus_lost_is_deferred (run [Add 1; Notify focus 1] newWorld) 1
           (conj eq_refl eq_refl) eq_refl).
Defined.

(** ** Removing the focused element *)

(** C2, as stated, fails: after [add(1)] and a focus-gain notification on
    element 1, [remove(1)] returns with [isFocused] still true and the
    focused-element reference still set. *)
Lemma remove_focused_not_immediate :
  let w := run [Add 1; Notify focus 1] newWorld in
  focusedElement w = Some 1 /\
  fst (remove 1 w) = Normal tt /\
  ~ (focused (exec (Remove 1) w) = false /\ focusedElement (exec (Remove 1) w) = None).
Proof.
  split; [reflexivity|]. split; [reflexivity|].
  intros [H _]. vm_compute in H. discriminate H.
Qed.

(** C2, amended.  With [E] the focused element, [remove(E)] returns
    normally with [isFocused] and the focused-element reference as they
    were and no change notification fired; it has queued one
    finalize-blur task behind those already waiting and recorded its
    handle.  The reference is cleared and [isFocused] is false once the
    queue has settled with no notification arriving meanwhile. *)
Theorem remove_focused_is_deferred (w : World) (E : Element) :
  focusedElement w = Some E ->
  let w1 := exec (Remove E) w in
  fst (remove E w) = Normal tt /\
  (focused w1 = focused w /\ focusedElement w1 = Some E /\ changes w1 = changes w) /\
  (timers w1 = timers w ++ [(nextTimerId w, FinalizeBlur)] /\
   handle w1 = Some (nextTimerId w)) /\
  (focused (settle w1) = false /\ focusedElement (settle w1) = None).
Proof.
  intros Hfe w1.
  assert (Hb : after_remove_blur E w = snd (_blur w)).
  { unfold after_remove_blur.
    now rewrite (proj2 (same_element_true E (focusedElement w)) Hfe). }
  assert (Hts : timers w1 = timers w ++ [(nextTimerId w, FinalizeBlur)]).
  { unfold w1, exec. simpl. rewrite remove_effect. simpl. rewrite Hb, _blur_effect.
    destruct (indexOf E (tracked w) >? -1)%Z; reflexivity. }
  split; [|split; [|split]].
  - rewrite remove_effect. reflexivity.
  - unfold w1, exec. simpl. rewrite remove_effect. simpl. rewrite Hb, _blur_effect.
    destruct (indexOf E (tracked w) >? -1)%Z; simpl; auto.
  - split; [exact Hts|].
    unfold w1, exec. simpl. rewrite remove_effect. simpl. rewrite Hb, _blur_effect.
    destruct (indexOf E (tracked w) >? -1)%Z; reflexivity.
  - assert (Hne : timers w1 <> []).
    { rewrite Hts. intros Hnil. apply app_eq_nil in Hnil. destruct Hnil as [_ Hnil].
      discriminate Hnil. }
    destruct (settle_effect w1 Hne) as (Hf & He & _). auto.
Qed.

Lemma remove_focused_is_deferred_witness :
  let w := run [Add 1; Notify focus 1] newWorld in
  let w1 := exec (Remove 1) w in
  fst (remove 1 w) = Normal tt /\
  (focused w1 = focused w /\ focusedElement w1 = Some 1 /\ changes w1 = changes w) /\
  (timers w1 = timers w ++ [(nextTimerId w, FinalizeBlur)] /\
   handle w1 = Some (nextTimerId w)) /\
  (focused (settle w1) = false /\ focusedElement (settle w1) = None).
Proof.
  exact (remove_focused_is_deferred (run [Add 1; Notify focus 1] newWorld) 1 eq_refl).
Defined.

(** ** How many tasks can wait *)




(** ** Focus-gain notifications *)




(** ** The list of elements and the subscriptions along a history *)

Lemma after_remove_blur_frame (element : Element) (w : World) :
  tracked (after_remove_blur element w) = tracked w /\
  subscriptions (after_remove_blur element w) = subscriptions w.
Proof.
  unfold after_remove_blur. destruct (same_element element (focusedElement w)); auto.
Qed.

Lemma tracked_exec (a : Action) (w : World) :
  tracked (exec a w) = tracked w \/
  (exists e, a = Add e /\ ~ In e (tracked w) /\ tracked (exec a w) = tracked w ++ [e]).
Proof.
  unfold exec. destruct a as [e|e|ev e|]; simpl.
  - rewrite add_effect. destruct (indexOf e (tracked w) >=? 0)%Z eqn:Hi; [now left|].
    right. exists e. apply indexOf_geb_false in Hi. auto.
  - left. rewrite remove_effect. simpl.
    destruct (indexOf e (tracked w) >? -1)%Z; apply after_remove_blur_frame.
  - left. rewrite dispatchEvent_unfold. apply invokeAll_frame.
  - left. rewrite runNextTimer_effect. destruct (timers w) as [|[i t] r]; reflexivity.
Qed.

Lemma tracked_grows (a : Action) (w : World) (x : Element) :
  In x (tracked w) -> In x (tracked (exec a w)).
Proof.
  intros Hx. destruct (tracked_exec a w) as [H|(e & _ & _ & H)]; rewrite H;
    [assumption | apply in_or_app; now left].
Qed.

Lemma tracked_history (acts : list Action) :
  forall w x, In x (tracked (run acts w)) -> In x (tracked w) \/ In (Add x) acts.
Proof.
  induction acts as [|a r IH]; intros w x Hx; simpl in *; [now left|].
  destruct (IH _ _ Hx) as [H|H]; [|now auto].
  destruct (tracked_exec a w) as [E|(e & Ha & _ & E)]; rewrite E in H; [now left|].
  apply in_app_or in H. destruct H as [H|[H|[]]]; [now left|]. subst. auto.
Qed.

Lemma subscriptions_exec (a : Action) (w : World) (s : Element * EventName * Listener) :
  In s (subscriptions (exec a w)) ->
  In s (subscriptions w) \/
  (exists e, a = Add e /\ ~ In e (tracked w) /\ fst (fst s) = e).
Proof.
  unfold exec. destruct a as [e|e|ev e|]; simpl.
  - rewrite add_effect. destruct (indexOf e (tracked w) >=? 0)%Z eqn:Hi; [now left|].
    simpl. intros H. apply in_app_or in H. destruct H as [H|H]; [now left|].
    right. exists e. apply indexOf_geb_false in Hi.
    destruct H as [<-|[<-|[]]]; auto.
  - rewrite remove_effect. simpl. intros H. left.
    destruct (after_remove_blur_frame e w) as [_ Hsub].
    destruct (indexOf e (tracked w) >? -1)%Z; simpl in H.
    + apply filter_In in H. destruct H as [H _]. now rewrite Hsub in H.
    + now rewrite Hsub in H.
  - rewrite dispatchEvent_unfold. intros H. left.
    destruct (invokeAll_frame (listenersFor e ev (subscriptions w)) w) as (_ & Hsub & _).
    now rewrite Hsub in H.
  - rewrite runNextTimer_effect. intros H. left.
    destruct (timers w) as [|[i t] r]; exact H.
Qed.

Lemma deaf_exec (element : Element) (a : Action) (w : World) :
  deaf element w -> deaf element (exec a w).
Proof.
  intros [Hin Hsub]. split; [now apply tracked_grows|].
  intros s Hs. destruct (subscriptions_exec a w s Hs) as [H|(e & _ & Hne & He)].
  - now apply Hsub.
  - unfold on_element. rewrite He. apply Nat.eqb_neq. intros ->. contradiction.
Qed.

Lemma deaf_run (element : Element) (acts : list Action) :
  forall w, deaf element w -> deaf element (run acts w).
Proof.
  induction acts as [|a r IH]; intros w Hw; simpl; [assumption|].
  apply IH. now apply deaf_exec.
Qed.

Lemma deaf_after_remove (element : Element) (w : World) :
  In element (tracked w) -> deaf element (exec (Remove element) w).
Proof.
  intros Hin. split; [now apply tracked_grows|].
  unfold exec. simpl. rewrite remove_effect. simpl.
  rewrite (proj2 (indexOf_gtb element (tracked w)) Hin). simpl.
  apply stopped_none.
Qed.

Lemma remove_unlisted (element : Element) (w : World) :
  well_formed w -> ~ In element (tracked w) -> remove element w = (Normal tt, w).
Proof.
  intros (_ & Hf & _ & _) Hnin. rewrite remove_effect. simpl.
  rewrite (proj2 (indexOf_gtb_false element (tracked w)) Hnin).
  unfold after_remove_blur.
  assert (Hs : same_element element (focusedElement w) = false).
  { apply same_element_false. intros He. apply Hnin. now apply Hf. }
  now rewrite Hs.
Qed.

(** [subscribed] is what [add] establishes and what only [remove] of the
    same element ends. *)
Lemma add_subscribes (element : Element) (w : World) :
  well_formed w ->
  ~ In element (tracked w) ->
  subscribed element (exec (Add element) w).
Proof.
  intros (_ & _ & Hs & _) Hnin. unfold exec. simpl. rewrite add_effect.
  rewrite (proj2 (indexOf_geb_false element (tracked w)) Hnin).
  assert (Hnone : forall ev, listenersFor element ev (subscriptions w) = []).
  { intros ev. apply listenersFor_none. intros [[x n] cb] Hin.
    unfold on_element. simpl. apply Nat.eqb_neq. intros ->.
    apply Hnin. now apply (Hs _ _ _ Hin). }
  unfold subscribed. simpl. rewrite !listenersFor_app, !Hnone. simpl.
  rewrite Nat.eqb_refl. simpl. auto.
Qed.

Lemma subscribed_exec (element : Element) (a : Action) (w : World) :
  well_formed w ->
  subscribed element w ->
  a <> Remove element ->
  subscribed element (exec a w).
Proof.
  intros (_ & _ & Hs & _) [Hf Hb] Ha.
  assert (Hin : In element (tracked w)).
  { assert (H : In (OnBlur) (listenersFor element blur (subscriptions w)))
      by (rewrite Hb; now left).
    apply listenersFor_In in H. now apply (Hs _ _ _ H). }
  unfold exec, subscribed. destruct a as [e|e|ev e|]; simpl.
  - rewrite add_effect. destruct (indexOf e (tracked w) >=? 0)%Z eqn:Hi; [now split|].
    apply indexOf_geb_false in Hi. simpl.
    assert (Hne : Nat.eqb e element = false).
    { apply Nat.eqb_neq. intros ->. contradiction. }
    rewrite !listenersFor_app, Hf, Hb. simpl. rewrite Hne. simpl. auto.
  - assert (Hne : element <> e) by congruence.
    rewrite remove_effect. simpl.
    destruct (after_remove_blur_frame e w) as [_ Hsub].
    destruct (indexOf e (tracked w) >? -1)%Z; simpl; rewrite Hsub;
      [rewrite !(listenersFor_stopped_other e element _ _ Hne) | ]; now split.
  - rewrite dispatchEvent_unfold.
    destruct (invokeAll_frame (listenersFor e ev (subscriptions w)) w) as (_ & Hsub & _).
    rewrite Hsub. now split.
  - rewrite runNextTimer_effect. destruct (timers w) as [|[i t] r]; now split.
Qed.

(** ** Registration *)

(** C5.  For an element [E] not in the list, [add(E)] returns normally,
    [E] is in the list afterwards (appended at its end) and the two
    closures are subscribed on it, the focus state being untouched.  For
    an element [E] already in the list, [add(E)] throws the
    duplicate-registration error and the whole state is as it was: [E] is
    not listed a second time, nothing is subscribed, [isFocused] and the
    focused-element reference are unaffected. *)
Theorem add_registers_or_rejects (w : World) (E : Element) :
  (~ In E (tracked w) ->
   let w1 := exec (Add E) w in
   fst (add E w) = Normal tt /\
   In E (tracked w1) /\
   tracked w1 = tracked w ++ [E] /\
   subscriptions w1 = subscriptions w ++ [(E, focus, OnFocus E); (E, blur, OnBlur)] /\
   focused w1 = focused w /\ focusedElement w1 = focusedElement w) /\
  (In E (tracked w) ->
   add E w = (Throw (MkCKEditorError "focusManager-add-element-already-exist"), w)).
Proof.
  split.
  - intros Hnin w1. unfold w1, exec. simpl. rewrite add_effect.
    rewrite (proj2 (indexOf_geb_false E (tracked w)) Hnin). unfold tracked. simpl.
    repeat split. apply in_or_app. right. now left.
  - intros Hin. rewrite add_effect.
    now rewrite (proj2 (indexOf_geb E (tracked w)) Hin).
Qed.

Lemma add_registers_or_rejects_witness :
  (let w1 := exec (Add 2) (run [Add 1] newWorld) in
   fst (add 2 (run [Add 1] newWorld)) = Normal tt /\
   In 2 (tracked w1) /\
   tracked w1 = tracked (run [Add 1] newWorld) ++ [2] /\
   subscriptions w1 =
     subscriptions (run [Add 1] newWorld) ++ [(2, focus, OnFocus 2); (2, blur, OnBlur)] /\
   focused w1 = focused (run [Add 1] newWorld) /\
   focusedElement w1 = focusedElement (run [Add 1] newWorld)) /\
  add 1 (run [Add 1] newWorld) =
    (Throw (MkCKEditorError "focusManager-add-element-already-exist"), run [Add 1] newWorld).
Proof.
  split.
  - apply (proj1 (add_registers_or_rejects (run [Add 1] newWorld) 2)).
    vm_compute. intros [H|[]]. discriminate H.
  - apply (proj2 (add_registers_or_rejects (run [Add 1] newWorld) 1)).
    vm_compute. now left.
Defined.

(** ** Removal *)

(** C4.  For an element [E] in the list, [remove(E)] leaves the list
    exactly as it was: [E] is still a member (the [slice] call builds a
    new array and its result is dropped), only its subscriptions are gone;
    a following [add(E)] therefore throws the duplicate-registration
    error. *)
Theorem remove_keeps_element_listed (w : World) (E : Element) :
  In E (tracked w) ->
  let w1 := exec (Remove E) w in
  tracked w1 = tracked w /\
  In E (tracked w1) /\
  (forall ev, listenersFor E ev (subscriptions w1) = []) /\
  add E w1 = (Throw (MkCKEditorError "focusManager-add-element-already-exist"), w1).
Proof.
  intros Hin w1.
  assert (Ht : tracked w1 = tracked w).
  { destruct (tracked_exec (Remove E) w) as [H|(e & Ha & _)]; [exact H | discriminate Ha]. }
  assert (Hin1 : In E (tracked w1)) by now rewrite Ht.
  split; [exact Ht|]. split; [exact Hin1|]. split.
  - intros ev. apply listenersFor_none. apply (deaf_after_remove E w Hin).
  - rewrite add_effect. now rewrite (proj2 (indexOf_geb E (tracked w1)) Hin1).
Qed.

Lemma remove_keeps_element_listed_witness :
  let w := run [Add 1; Add 2] newWorld in
  let w1 := exec (Remove 1) w in
  tracked w1 = tracked w /\
  In 1 (tracked w1) /\
  (forall ev, listenersFor 1 ev (subscriptions w1) = []) /\
  add 1 w1 = (Throw (MkCKEditorError "focusManager-add-element-already-exist"), w1).
Proof.
  apply (remove_keeps_element_listed (run [Add 1; Add 2] newWorld) 1).
  vm_compute. now left.
Defined.

(** C8.  For an element [E] that no call of the history registered,
    [remove(E)] returns normally and changes nothing at all: the list,
    [isFocused], the focused-element reference, the recorded handle and
    the waiting tasks are as they were. *)
Theorem remove_never_registered_is_noop (acts : list Action) (E : Element) :
  ~ In (Add E) acts ->
  remove E (run acts newWorld) = (Normal tt, run acts newWorld).
Proof.
  intros Hnever. apply remove_unlisted.
  - apply reachable_well_formed, reachable_history.
  - intros Hin. destruct (tracked_history acts newWorld E Hin) as [H|H];
      [destruct H | contradiction].
Qed.

Lemma remove_never_registered_is_noop_witness :
  remove 3 (run [Add 1; Notify focus 1; Add 2; Notify blur 1] newWorld) =
  (Normal tt, run [Add 1; Notify focus 1; Add 2; Notify blur 1] newWorld).
Proof.
  apply (remove_never_registered_is_noop [Add 1; Notify focus 1; Add 2; Notify blur 1] 3).
  simpl. intros [H|[H|[H|[H|[]]]]]; discriminate H.
Defined.

(** C9.  Once [remove(E)] has returned for an element [E] of the list,
    nothing is subscribed on [E], and this stays so whatever happens next
    (a later [add(E)] throws): after any further history, a focus-gain or
    focus-lost notification on [E] runs no closure and leaves the world,
    hence [isFocused] and the focused-element reference, as it was. *)
Theorem removed_element_is_not_heard (w : World) (E : Element)
        (acts : list Action) (ev : EventName) :
  In E (tracked w) ->
  let w2 := run acts (exec (Remove E) w) in
  dispatchEvent E ev w2 = (Normal tt, w2) /\
  focused (exec (Notify ev E) w2) = focused w2 /\
  focusedElement (exec (Notify ev E) w2) = focusedElement w2.
Proof.
  intros Hin w2.
  assert (Hd : deaf E w2) by (apply deaf_run; now apply deaf_after_remove).
  assert (Hn : dispatchEvent E ev w2 = (Normal tt, w2)).
  { apply notify_unsubscribed. apply Hd. }
  split; [exact Hn|]. unfold exec. simpl. rewrite Hn. auto.
Qed.

Lemma removed_element_is_not_heard_witness :
  let w2 := run [Add 1; Notify focus 2] (exec (Remove 1) (run [Add 1; Add 2] newWorld)) in
  dispatchEvent 1 focus w2 = (Normal tt, w2) /\
  focused (exec (Notify focus 1) w2) = focused w2 /\
  focusedElement (exec (Notify focus 1) w2) = focusedElement w2.
Proof.
  apply (removed_element_is_not_heard (run [Add 1; Add 2] newWorld) 1
           [Add 1; Notify focus 2] focus).
  vm_compute. now left.
Defined.

(** ** The boolean and the back-reference *)

(** C10.  A freshly constructed manager has [isFocused] false and no
    focused element, and in every state reached from it by calls of [add]
    and [remove], notifications and turns of the task queue, [isFocused]
    is true exactly when the focused-element reference is not null. *)
Theorem isFocused_iff_focusedElement :
  (focused newWorld = false /\ focusedElement newWorld = None) /\
  (forall w, reachable w -> (focused w = true <-> focusedElement w <> None)).
Proof.
  split; [split; reflexivity|].
  intros w Hr. destruct (reachable_well_formed w Hr) as (Hc & _).
  unfold consistent in Hc. rewrite Hc.
  destruct (focusedElement w); split; congruence.
Qed.

Lemma isFocused_iff_focusedElement_witness :
  focused (run [Add 1; Notify focus 1; Notify blur 1] newWorld) = true <->
  focusedElement (run [Add 1; Notify focus 1; Notify blur 1] newWorld) <> None.
Proof.
  apply (proj2 isFocused_iff_focusedElement).
  apply reachable_history.
Defined.

(** * Further properties of the class *)

(** ** What holds across the closures run by one notification *)

Lemma invokeAll_preserves (P : World -> Prop) :
  (forall e w, P w -> P (snd (_focus e w))) ->
  (forall w, P w -> P (snd (_blur w))) ->
  forall ls w, P w -> P (snd (invokeAll ls w)).
Proof.
  intros Hfocus Hblur. induction ls as [|l r IH]; intros w Hw; [exact Hw|].
  destruct l as [e|]; cbn [invokeAll invoke]; unfold bind.
  - pose proof (Hfocus e w Hw) as Hw'. rewrite _focus_effect in *. cbv beta iota.
    now apply IH.
  - pose proof (Hblur w Hw) as Hw'. rewrite _blur_effect in *. cbv beta iota.
    now apply IH.
Qed.

Lemma after_remove_blur_preserves (P : World -> Prop) (element : Element) (w : World) :
  (forall w, P w -> P (snd (_blur w))) ->
  P w -> P (after_remove_blur element w).
Proof.
  intros Hblur Hw. unfold after_remove_blur.
  destruct (same_element element (focusedElement w)); [now apply Hblur | exact Hw].
Qed.

(** ** Errors *)

(** X1.  The only call that throws is [add] on an element already in the
    list, with the duplicate-registration error and the world untouched;
    [remove], notifications and turns of the task queue always return
    normally. *)
Theorem only_duplicate_add_throws (a : Action) (w : World) (e : CKEditorError) :
  fst (perform a w) = Throw e ->
  exists E,
    a = Add E /\ In E (tracked w) /\
    e = MkCKEditorError "focusManager-add-element-already-exist" /\
    snd (perform a w) = w.
Proof.
  destruct a as [x|x|ev x|]; simpl.
  - rewrite add_effect. destruct (indexOf x (tracked w) >=? 0)%Z eqn:Hi; simpl.
    + intros H. injection H as <-. exists x. apply indexOf_geb in Hi. auto.
    + discriminate.
  - rewrite remove_effect. simpl. discriminate.
  - rewrite dispatchEvent_unfold.
    destruct (invokeAll_frame (listenersFor x ev (subscriptions w)) w) as (Hn & _).
    rewrite Hn. discriminate.
  - rewrite runNextTimer_effect. destruct (timers w) as [|[i t] r]; simpl; discriminate.
Qed.

Lemma only_duplicate_add_throws_witness :
  exists E,
    Add 1 = Add E /\ In E (tracked (run [Add 1] newWorld)) /\
    MkCKEditorError "focusManager-add-element-already-exist" =
      MkCKEditorError "focusManager-add-element-already-exist" /\
    snd (perform (Add 1) (run [Add 1] newWorld)) = run [Add 1] newWorld.
Proof.
  exact (only_duplicate_add_throws (Add 1) (run [Add 1] newWorld)
           (MkCKEditorError "focusManager-add-element-already-exist") eq_refl).
Defined.

(** ** The list of elements *)

(** X2.  In every reachable state the list of elements holds no element
    twice. *)
Theorem elements_have_no_duplicates (w : World) :
  reachable w -> NoDup (tracked w).
Proof.
  induction 1 as [|a w Hr IH]; [constructor|].
  destruct (tracked_exec a w) as [E|(e & _ & Hnin & E)]; rewrite E; [exact IH|].
  apply NoDup_app; [exact IH | repeat constructor; intros [] |].
  intros x Hx [Hx'|[]]. subst. contradiction.
Qed.

Lemma elements_have_no_duplicates_witness :
  NoDup (tracked (run [Add 1; Add 2; Remove 1; Add 1; Add 3] newWorld)).
Proof.
  apply (elements_have_no_duplicates (run [Add 1; Add 2; Remove 1; Add 1; Add 3] newWorld)).
  apply reachable_history.
Defined.

(** X3.  No history shortens or reorders the list of elements: what was
    listed stays listed, in place, later registrations being appended.
    Hence an element once listed can never be registered again,
    whatever happens in between (its removal included): [add] throws
    and changes nothing. *)
Theorem elements_never_shrink (acts : list Action) (w : World) :
  (exists more, tracked (run acts w) = tracked w ++ more) /\
  (forall E, In E (tracked w) ->
     add E (run acts w) =
     (Throw (MkCKEditorError "focusManager-add-element-already-exist"), run acts w)).
Proof.
  assert (Hpre : exists more, tracked (run acts w) = tracked w ++ more).
  { revert w. induction acts as [|a r IH]; intros w; simpl.
    - exists []. now rewrite app_nil_r.
    - destruct (IH (exec a w)) as [more Hm]. rewrite Hm.
      destruct (tracked_exec a w) as [E|(e & _ & _ & E)]; rewrite E.
      + now exists more.
      + exists ([e] ++ more). now rewrite app_assoc. }
  split; [exact Hpre|]. intros E Hin. destruct Hpre as [more Hm].
  rewrite add_effect.
  assert (Hin' : In E (tracked (run acts w))) by (rewrite Hm; apply in_or_app; now left).
  now rewrite (proj2 (indexOf_geb E (tracked (run acts w))) Hin').
Qed.

Lemma elements_never_shrink_witness :
  add 1 (run [Remove 1; Notify focus 2; Tick] (run [Add 1; Add 2] newWorld)) =
  (Throw (MkCKEditorError "focusManager-add-element-already-exist"),
   run [Remove 1; Notify focus 2; Tick] (run [Add 1; Add 2] newWorld)).
Proof.
  apply (proj2 (elements_never_shrink [Remove 1; Notify focus 2; Tick]
                  (run [Add 1; Add 2] newWorld)) 1).
  vm_compute. now left.
Defined.

(** X4.  In every reachable state the focused-element reference, when set,
    points to an element of the list. *)
Theorem focused_element_is_listed (w : World) (E : Element) :
  reachable w -> focusedElement w = Some E -> In E (tracked w).
Proof.
  intros Hr. destruct (reachable_well_formed w Hr) as (_ & Hf & _). apply Hf.
Qed.

Lemma focused_element_is_listed_witness :
  In 2 (tracked (run [Add 1; Add 2; Notify focus 2; Remove 2] newWorld)).
Proof.
  apply (focused_element_is_listed
           (run [Add 1; Add 2; Notify focus 2; Remove 2] newWorld) 2).
  - apply reachable_history.
  - reflexivity.
Defined.

(** ** Subscriptions *)

Lemma silent_exec (element : Element) (a : Action) (w : World) :
  (forall ev, listenersFor element ev (subscriptions w) = []) ->
  a <> Add element ->
  forall ev, listenersFor element ev (subscriptions (exec a w)) = [].
Proof.
  intros Hnone Ha ev. unfold exec. destruct a as [e|e|n e|]; simpl.
  - rewrite add_effect. destruct (indexOf e (tracked w) >=? 0)%Z; [apply Hnone|].
    simpl. rewrite listenersFor_app, Hnone. simpl.
    assert (Hne : Nat.eqb e element = false).
    { apply Nat.eqb_neq. intros ->. now apply Ha. }
    now rewrite Hne.
  - rewrite remove_effect. simpl.
    destruct (after_remove_blur_frame e w) as [_ Hsub].
    destruct (indexOf e (tracked w) >? -1)%Z; simpl; rewrite Hsub; [|apply Hnone].
    destruct (Nat.eq_dec element e) as [->|Hne].
    + apply listenersFor_none, stopped_none.
    + rewrite (listenersFor_stopped_other e element ev _ Hne). apply Hnone.
  - rewrite dispatchEvent_unfold.
    destruct (invokeAll_frame (listenersFor e n (subscriptions w)) w) as (_ & Hsub & _).
    rewrite Hsub. apply Hnone.
  - rewrite runNextTimer_effect. destruct (timers w) as [|[i t] r]; apply Hnone.
Qed.

Lemma subscribed_listed (element : Element) (w : World) :
  well_formed w -> subscribed element w -> In element (tracked w).
Proof.
  intros (_ & _ & Hs & _) [_ Hb].
  assert (H : In OnBlur (listenersFor element blur (subscriptions w)))
    by (rewrite Hb; now left).
  apply listenersFor_In in H. now apply (Hs _ _ _ H).
Qed.

Lemma subscribed_or_silent_exec (element : Element) (a : Action) (w : World) :
  well_formed w ->
  subscribed_or_silent element w ->
  subscribed_or_silent element (exec a w).
Proof.
  intros Hw [[Hsub Hin]|Hnone].
  - destruct a as [e|e|ev e|];
      try (left; split; [apply subscribed_exec; [assumption|assumption|discriminate]
                        | now apply tracked_grows]).
    destruct (Nat.eq_dec e element) as [->|Hne].
    + right. intros ev. apply listenersFor_none.
      apply (deaf_after_remove element w Hin).
    + left. split; [|now apply tracked_grows].
      apply subscribed_exec; [assumption|assumption|congruence].
  - destruct a as [e|e|ev e|];
      try (right; apply silent_exec; [assumption|discriminate]).
    destruct (Nat.eq_dec e element) as [->|Hne].
    + destruct (in_dec Nat.eq_dec element (tracked w)) as [Hin|Hnin].
      * right. unfold exec. simpl. rewrite add_effect.
        now rewrite (proj2 (indexOf_geb element (tracked w)) Hin).
      * left. split; [now apply add_subscribes|].
        unfold exec. simpl. rewrite add_effect.
        rewrite (proj2 (indexOf_geb_false element (tracked w)) Hnin).
        unfold tracked. simpl. apply in_or_app. right. now left.
    + right. apply silent_exec; [assumption|congruence].
Qed.

Lemma reachable_subscribed_or_silent (element : Element) (w : World) :
  reachable w -> subscribed_or_silent element w.
Proof.
  induction 1 as [|a w Hr IH]; [right; reflexivity|].
  apply subscribed_or_silent_exec; [now apply reachable_well_formed | exact IH].
Qed.

(** X5.  In every reachable state no closure is subscribed twice: each
    element either has exactly the focus closure and the blur closure of
    its [add] call subscribed on it, and is listed, or has nothing
    subscribed on it at all. *)
Theorem closures_subscribed_once_or_never (w : World) (E : Element) :
  reachable w -> subscribed_or_silent E w.
Proof. apply reachable_subscribed_or_silent. Qed.

Lemma closures_subscribed_once_or_never_witness :
  subscribed_or_silent 1 (run [Add 1; Remove 1; Add 1; Add 2] newWorld) /\
  subscribed_or_silent 2 (run [Add 1; Remove 1; Add 1; Add 2] newWorld).
Proof.
  split.
  - apply (closures_subscribed_once_or_never
             (run [Add 1; Remove 1; Add 1; Add 2] newWorld) 1), reachable_history.
  - apply (closures_subscribed_once_or_never
             (run [Add 1; Remove 1; Add 1; Add 2] newWorld) 2), reachable_history.
Defined.

(** X6.  In a reachable state, an element that is listened to stays
    listened to, with the same two closures, through every action other
    than its own [remove]: registrations and removals of other elements,
    notifications on any element and turns of the task queue do not touch
    its subscriptions. *)
Theorem only_own_remove_unsubscribes (w : World) (E : Element) (a : Action) :
  reachable w ->
  subscribed E w ->
  a <> Remove E ->
  subscribed E (exec a w).
Proof.
  intros Hr Hs Ha. apply subscribed_exec; [now apply reachable_well_formed | exact Hs | exact Ha].
Qed.

Lemma only_own_remove_unsubscribes_witness :
  subscribed 1 (exec (Remove 2) (run [Add 1; Add 2; Notify focus 2] newWorld)).
Proof.
  apply (only_own_remove_unsubscribes (run [Add 1; Add 2; Notify focus 2] newWorld) 1 (Remove 2)).
  - apply reachable_history.
  - split; reflexivity.
  - discriminate.
Defined.

(** ** Who writes the focus state *)

(** X7.  Only a turn of the task queue can end the focused state: while
    [isFocused] is true, every other action ([add], [remove], a
    notification of either kind on any element) leaves it true and fires
    no change notification. *)
Theorem only_the_task_unfocuses (a : Action) (w : World) :
  a <> Tick ->
  focused w = true ->
  focused (exec a w) = true /\ changes (exec a w) = changes w.
Proof.
  intros Ha Hf.
  set (P := fun w' => focused w' = true /\ changes w' = changes w).
  assert (Hfocus : forall e w', P w' -> P (snd (_focus e w'))).
  { intros e w' [H1 H2]. rewrite _focus_effect. unfold P, focused in *. simpl.
    rewrite H1. auto. }
  assert (Hblur : forall w', P w' -> P (snd (_blur w'))).
  { intros w' [H1 H2]. rewrite _blur_effect. unfold P, focused in *. simpl. auto. }
  assert (HP : P w) by (split; [exact Hf | reflexivity]).
  change (P (exec a w)). unfold exec. destruct a as [e|e|ev e|]; simpl.
  - rewrite add_effect. destruct (indexOf e (tracked w) >=? 0)%Z; exact HP.
  - rewrite remove_effect. simpl.
    pose proof (after_remove_blur_preserves P e w Hblur HP) as HP'.
    destruct (indexOf e (tracked w) >? -1)%Z; exact HP'.
  - rewrite dispatchEvent_unfold. now apply invokeAll_preserves.
  - contradiction.
Qed.

Lemma only_the_task_unfocuses_witness :
  focused (exec (Remove 1) (run [Add 1; Notify focus 1; Notify blur 1] newWorld)) = true /\
  changes (exec (Remove 1) (run [Add 1; Notify focus 1; Notify blur 1] newWorld)) =
  changes (run [Add 1; Notify focus 1; Notify blur 1] newWorld).
Proof.
  apply (only_the_task_unfocuses (Remove 1)
           (run [Add 1; Notify focus 1; Notify blur 1] newWorld)).
  - discriminate.
  - reflexivity.
Defined.

(** X8.  In a reachable state with [isFocused] false, the only action
    that makes it true is a focus-gain notification on an element that is
    listened to; that element is listed, becomes the focused element, and
    exactly one change notification (carrying true) fires. *)
Theorem only_focus_gain_focuses (a : Action) (w : World) :
  reachable w ->
  focused w = false ->
  focused (exec a w) = true ->
  exists E,
    a = Notify focus E /\ subscribed E w /\ In E (tracked w) /\
    focusedElement (exec a w) = Some E /\
    changes (exec a w) = changes w ++ [true].
Proof.
  intros Hr Hf Ht. pose proof (reachable_well_formed w Hr) as Hw.
  unfold exec in *. destruct a as [e|e|ev e|]; simpl in *.
  - rewrite add_effect in Ht. destruct (indexOf e (tracked w) >=? 0)%Z;
      unfold focused in *; simpl in Ht; congruence.
  - rewrite remove_effect in Ht. simpl in Ht. unfold after_remove_blur in Ht.
    destruct (same_element e (focusedElement w)); try rewrite _blur_effect in Ht;
      destruct (indexOf e (tracked w) >? -1)%Z; unfold focused in *; simpl in Ht; congruence.
  - destruct (reachable_subscribed_or_silent e w Hr) as [[Hs Hin]|Hnone].
    + destruct ev.
      * exists e. rewrite (notify_focus_subscribed e w Hs), _focus_effect.
        unfold focusedElement, focused in *. simpl. rewrite Hf. auto.
      * rewrite (notify_blur_subscribed e w Hs), _blur_effect in Ht.
        unfold focused in *. simpl in Ht. congruence.
    + rewrite dispatchEvent_unfold, Hnone in Ht. simpl in Ht. congruence.
  - rewrite runNextTimer_effect in Ht. destruct (timers w) as [|[i t] r];
      unfold focused in *; simpl in Ht; congruence.
Qed.

Lemma only_focus_gain_focuses_witness :
  exists E,
    Notify focus 2 = Notify focus E /\
    subscribed E (run [Add 1; Add 2] newWorld) /\
    In E (tracked (run [Add 1; Add 2] newWorld)) /\
    focusedElement (exec (Notify focus 2) (run [Add 1; Add 2] newWorld)) = Some E /\
    changes (exec (Notify focus 2) (run [Add 1; Add 2] newWorld)) =
      changes (run [Add 1; Add 2] newWorld) ++ [true].
Proof.
  apply (only_focus_gain_focuses (Notify focus 2) (run [Add 1; Add 2] newWorld)).
  - apply reachable_history.
  - reflexivity.
  - reflexivity.
Defined.

(** ** How [add] and [remove] compose *)

Lemma filter_keeps_all {A : Type} (f : A -> bool) (l : list A) :
  (forall x, In x l -> f x = true) -> filter f l = l.
Proof.
  induction l as [|x r IH]; intros H; simpl; [reflexivity|].
  rewrite (H x (or_introl eq_refl)). f_equal. apply IH. intros y Hy. apply H. now right.
Qed.

Lemma filter_twice {A : Type} (f : A -> bool) (l : list A) :
  filter f (filter f l) = filter f l.
Proof.
  apply filter_keeps_all. intros x Hx. now apply filter_In in Hx.
Qed.

(** X9.  In a reachable state, registering an element that is not listed
    and removing it at once does not give the state back: focus state,
    subscriptions, waiting tasks and change notifications are as before,
    but the element stays at the end of the list. *)
Theorem add_then_remove_leaves_element (w : World) (E : Element) :
  reachable w ->
  ~ In E (tracked w) ->
  exec (Remove E) (exec (Add E) w) =
  mkWorld
    (mkFocusManager (focused w) (tracked w ++ [E]) (handle w) (focusedElement w))
    (subscriptions w) (timers w) (nextTimerId w) (changes w).
Proof.
  intros Hr Hnin. destruct (reachable_well_formed w Hr) as (_ & Hf & Hs & _).
  assert (Hne : same_element E (focusedElement w) = false).
  { apply same_element_false. intros He. apply Hnin. now apply Hf. }
  unfold exec. simpl. rewrite add_effect.
  rewrite (proj2 (indexOf_geb_false E (tracked w)) Hnin). simpl.
  rewrite remove_effect. unfold after_remove_blur, focusedElement, tracked in *. simpl.
  rewrite Hne.
  assert (Hin : In E (_elements (this w) ++ [E])) by (apply in_or_app; right; now left).
  rewrite (proj2 (indexOf_gtb E _) Hin). simpl. f_equal.
  rewrite filter_app.
  assert (Hown : filter (fun s => negb (on_element E s))
                        [(E, focus, OnFocus E); (E, blur, OnBlur)] = []).
  { simpl. unfold on_element. simpl. now rewrite Nat.eqb_refl. }
  rewrite Hown, app_nil_r. apply filter_keeps_all. intros [[x n] cb] Hx.
  unfold on_element. simpl. apply negb_true_iff, Nat.eqb_neq. intros ->.
  apply Hnin. now apply (Hs _ _ _ Hx).
Qed.

Lemma add_then_remove_leaves_element_witness :
  exec (Remove 2) (exec (Add 2) (run [Add 1; Notify focus 1] newWorld)) =
  mkWorld
    (mkFocusManager (focused (run [Add 1; Notify focus 1] newWorld))
                    (tracked (run [Add 1; Notify focus 1] newWorld) ++ [2])
                    (handle (run [Add 1; Notify focus 1] newWorld))
                    (focusedElement (run [Add 1; Notify focus 1] newWorld)))
    (subscriptions (run [Add 1; Notify focus 1] newWorld))
    (timers (run [Add 1; Notify focus 1] newWorld))
    (nextTimerId (run [Add 1; Notify focus 1] newWorld))
    (changes (run [Add 1; Notify focus 1] newWorld)).
Proof.
  apply (add_then_remove_leaves_element (run [Add 1; Notify focus 1] newWorld) 2).
  - apply reachable_history.
  - vm_compute. intros [H|[]]. discriminate H.
Defined.

(** X10.  Removing an element that is not the focused one touches nothing
    but that element's subscriptions: the fields of the manager, the
    waiting tasks and the change notifications are as before, the closures
    subscribed on every other element too, and a second [remove] of the
    same element changes nothing more. *)
Theorem remove_unfocused_only_unsubscribes (w : World) (E : Element) :
  focusedElement w <> Some E ->
  let w1 := exec (Remove E) w in
  this w1 = this w /\
  timers w1 = timers w /\ nextTimerId w1 = nextTimerId w /\ changes w1 = changes w /\
  (forall other ev, other <> E ->
     listenersFor other ev (subscriptions w1) = listenersFor other ev (subscriptions w)) /\
  exec (Remove E) w1 = w1.
Proof.
  intros Hne w1.
  assert (Hs : same_element E (focusedElement w) = false) by now apply same_element_false.
  assert (E1 : w1 =
               if (indexOf E (tracked w) >? -1)%Z
               then mkWorld (this w)
                            (filter (fun s => negb (on_element E s)) (subscriptions w))
                            (timers w) (nextTimerId w) (changes w)
               else w).
  { unfold w1, exec. simpl. rewrite remove_effect. unfold after_remove_blur.
    now rewrite Hs. }
  assert (Hthis : this w1 = this w).
  { rewrite E1. destruct (indexOf E (tracked w) >? -1)%Z; reflexivity. }
  split; [exact Hthis|].
  split; [rewrite E1; destruct (indexOf E (tracked w) >? -1)%Z; reflexivity|].
  split; [rewrite E1; destruct (indexOf E (tracked w) >? -1)%Z; reflexivity|].
  split; [rewrite E1; destruct (indexOf E (tracked w) >? -1)%Z; reflexivity|].
  split.
  - intros other ev Ho. rewrite E1.
    destruct (indexOf E (tracked w) >? -1)%Z; [|reflexivity].
    simpl. now apply listenersFor_stopped_other.
  - unfold exec at 1. simpl. rewrite remove_effect. unfold after_remove_blur.
    unfold focusedElement, tracked. rewrite Hthis.
    unfold focusedElement in Hs. rewrite Hs.
    rewrite E1. unfold tracked.
    destruct (indexOf E (_elements (this w)) >? -1)%Z eqn:Hi; simpl; [|reflexivity].
    now rewrite filter_twice.
Qed.

Lemma remove_unfocused_only_unsubscribes_witness :
  let w := run [Add 1; Add 2; Notify focus 1] newWorld in
  let w1 := exec (Remove 2) w in
  this w1 = this w /\
  timers w1 = timers w /\ nextTimerId w1 = nextTimerId w /\ changes w1 = changes w /\
  (forall other ev, other <> 2 ->
     listenersFor other ev (subscriptions w1) = listenersFor other ev (subscriptions w)) /\
  exec (Remove 2) w1 = w1.
Proof.
  apply (remove_unfocused_only_unsubscribes (run [Add 1; Add 2; Notify focus 1] newWorld) 2).
  vm_compute. discriminate.
Defined.

(** ** Handles and waiting tasks *)

Lemma unrecorded_blur (id : TimerId) (w : World) :
  unrecorded id w -> unrecorded id (snd (_blur w)).
Proof.
  intros (Hp & Hh & Hlt). rewrite _blur_effect. unfold unrecorded, pending, handle in *.
  simpl. split; [|split].
  - rewrite map_app. apply in_or_app. now left.
  - intros H. injection H as H. lia.
  - lia.
Qed.

Lemma unrecorded_focus (id : TimerId) (e : Element) (w : World) :
  unrecorded id w -> unrecorded id (snd (_focus e w)).
Proof.
  intros (Hp & Hh & Hlt). rewrite _focus_effect. unfold unrecorded, pending, handle in *.
  simpl. split; [|split; assumption].
  destruct (_nextEventLoopTimeout (this w)) as [h|]; [|exact Hp].
  apply cleared_others_stay; [congruence | exact Hp].
Qed.

Lemma unrecorded_exec (id : TimerId) (a : Action) (w : World) :
  a <> Tick -> unrecorded id w -> unrecorded id (exec a w).
Proof.
  intros Ha Hu. unfold exec. destruct a as [e|e|ev e|]; simpl.
  - rewrite add_effect. destruct (indexOf e (tracked w) >=? 0)%Z; exact Hu.
  - rewrite remove_effect. simpl.
    pose proof (after_remove_blur_preserves (unrecorded id) e w (unrecorded_blur id) Hu) as Hu'.
    destruct (indexOf e (tracked w) >? -1)%Z; exact Hu'.
  - rewrite dispatchEvent_unfold.
    apply (invokeAll_preserves (unrecorded id));
      [intros x w'; apply unrecorded_focus | apply unrecorded_blur | exact Hu].
  - contradiction.
Qed.

(** X11.  A waiting task whose handle is no longer the recorded one cannot
    be cancelled any more: in a reachable state, such a task is still
    waiting after any history made of [add], [remove] and notifications of
    either kind (focus-gain included); only its own turn in the task queue
    takes it out, and that turn clears the focus state. *)
Theorem unrecorded_task_cannot_be_cancelled
        (w : World) (id : TimerId) (acts : list Action) :
  reachable w ->
  pending id w ->
  handle w <> Some id ->
  Forall (fun a => a <> Tick) acts ->
  pending id (run acts w) /\
  (forall rest,
     timers (run acts w) = (id, FinalizeBlur) :: rest ->
     focused (exec Tick (run acts w)) = false /\
     focusedElement (exec Tick (run acts w)) = None).
Proof.
  intros Hr Hp Hh Hacts.
  assert (Hu : unrecorded id w).
  { destruct (reachable_well_formed w Hr) as (_ & _ & _ & Ht). repeat split; auto. }
  clear Hr Hp Hh. split.
  - revert w Hu. induction Hacts as [|a r Ha Hrest IH]; intros w Hu; simpl.
    + apply Hu.
    + apply IH. now apply unrecorded_exec.
  - intros rest Hts. destruct (tick_head _ _ _ _ Hts) as (H1 & H2 & _). auto.
Qed.

Lemma unrecorded_task_cannot_be_cancelled_witness :
  let w := run nested_focus_then_blur newWorld in
  let acts := [Notify focus 1; Notify focus 2; Add 3; Remove 1] in
  pending 0 (run acts w) /\
  (forall rest,
     timers (run acts w) = (0, FinalizeBlur) :: rest ->
     focused (exec Tick (run acts w)) = false /\
     focusedElement (exec Tick (run acts w)) = None).
Proof.
  apply (unrecorded_task_cannot_be_cancelled
           (run nested_focus_then_blur newWorld) 0
           [Notify focus 1; Notify focus 2; Add 3; Remove 1]).
  - apply reachable_history.
  - vm_compute. auto.
  - vm_compute. discriminate.
  - repeat constructor; discriminate.
Defined.

Lemma handle_is_latest_blur (w : World) :
  handle_is_latest w -> handle_is_latest (snd (_blur w)).
Proof. intros _. rewrite _blur_effect. reflexivity. Qed.

Lemma handle_is_latest_focus (e : Element) (w : World) :
  handle_is_latest w -> handle_is_latest (snd (_focus e w)).
Proof.
  rewrite _focus_effect. unfold handle_is_latest, handle. simpl.
  destruct (_nextEventLoopTimeout (this w)); [auto|].
  intros [Hnil Hz]. split; assumption.
Qed.

(** X12.  [_nextEventLoopTimeout] is never reset: in every reachable state
    it is [null] only if nothing was ever scheduled (then nothing is
    waiting), and otherwise it is the handle returned by the latest
    [setTimeout] call, whether or not that task is still waiting. *)
Theorem recorded_handle_is_latest (w : World) :
  reachable w -> handle_is_latest w.
Proof.
  induction 1 as [|a w Hr IH]; [split; reflexivity|].
  unfold exec. destruct a as [e|e|ev e|]; simpl.
  - rewrite add_effect. destruct (indexOf e (tracked w) >=? 0)%Z; exact IH.
  - rewrite remove_effect. simpl.
    pose proof (after_remove_blur_preserves handle_is_latest e w handle_is_latest_blur IH)
      as IH'.
    destruct (indexOf e (tracked w) >? -1)%Z; exact IH'.
  - rewrite dispatchEvent_unfold.
    apply (invokeAll_preserves handle_is_latest);
      [intros x w'; apply handle_is_latest_focus | apply handle_is_latest_blur | exact IH].
  - rewrite runNextTimer_effect.
    destruct (timers w) as [|[i t] r] eqn:Hts; [exact IH|].
    unfold handle_is_latest, handle in *. simpl.
    destruct (_nextEventLoopTimeout (this w)); [exact IH|].
    destruct IH as [Hnil _]. rewrite Hts in Hnil. discriminate Hnil.
Qed.

Lemma recorded_handle_is_latest_witness :
  handle_is_latest (run [Add 1; Notify focus 1; Notify blur 1; Tick; Notify focus 1] newWorld).
Proof.
  apply (recorded_handle_is_latest
           (run [Add 1; Notify focus 1; Notify blur 1; Tick; Notify focus 1] newWorld)).
  apply reachable_history.
Defined.

(** ** Removing the focused element while focus moves on *)

(** X13.  With [E] the focused element and a different element [E2]
    listened to, [remove(E)] followed, before the scheduled task runs, by a
    focus-gain notification on [E2] cancels the task that [remove]
    scheduled; [E2] is then the focused element, [isFocused] is true, and
    if it was true before no change notification has fired. *)
Theorem remove_then_sibling_focus (w : World) (E E2 : Element) :
  focusedElement w = Some E ->
  subscribed E2 w ->
  E2 <> E ->
  let w1 := exec (Remove E) w in
  let w2 := exec (Notify focus E2) w1 in
  focusedElement w2 = Some E2 /\
  focused w2 = true /\
  ~ pending (nextTimerId w) w2 /\
  (focused w = true -> changes w2 = changes w).
Proof.
  intros Hfe [Hsf Hsb] Hne w1 w2.
  assert (Hb : after_remove_blur E w = snd (_blur w)).
  { unfold after_remove_blur.
    now rewrite (proj2 (same_element_true E (focusedElement w)) Hfe). }
  assert (E1 : w1 =
               mkWorld (this (snd (_blur w)))
                       (if (indexOf E (tracked w) >? -1)%Z
                        then filter (fun s => negb (on_element E s)) (subscriptions w)
                        else subscriptions w)
                       (timers w ++ [(nextTimerId w, FinalizeBlur)])
                       (S (nextTimerId w)) (changes w)).
  { unfold w1, exec. simpl. rewrite remove_effect. simpl. rewrite Hb, _blur_effect.
    destruct (indexOf E (tracked w) >? -1)%Z; reflexivity. }
  assert (Hs1 : subscribed E2 w1).
  { rewrite E1. unfold subscribed. simpl.
    destruct (indexOf E (tracked w) >? -1)%Z;
      [rewrite !(listenersFor_stopped_other E E2 _ _ Hne) | ]; now split. }
  assert (E2w : w2 = snd (_focus E2 w1)).
  { unfold w2, exec. simpl. now rewrite (notify_focus_subscribed E2 w1 Hs1). }
  rewrite E2w, _focus_effect, E1, _blur_effect.
  unfold focusedElement, focused, pending, handle. simpl.
  split; [reflexivity|]. split; [reflexivity|]. split.
  - apply cleared_not_pending.
  - intros Hf. unfold focused in Hf. now rewrite Hf.
Qed.

Lemma remove_then_sibling_focus_witness :
  let w := run [Add 1; Add 2; Notify focus 1] newWorld in
  let w1 := exec (Remove 1) w in
  let w2 := exec (Notify focus 2) w1 in
  focusedElement w2 = Some 2 /\
  focused w2 = true /\
  ~ pending (nextTimerId w) w2 /\
  (focused w = true -> changes w2 = changes w).
Proof.
  apply (remove_then_sibling_focus (run [Add 1; Add 2; Notify focus 1] newWorld) 1 2).
  - reflexivity.
  - split; reflexivity.
  - discriminate.
Defined.

(** ** Who takes a waiting task out of the queue *)

(** X14.  In a reachable state, a waiting task disappears from the queue
    without running only through a focus-gain notification on an element
    that is listened to, and only if its handle is the recorded one:
    [add], [remove] and focus-lost notifications cancel nothing. *)
Theorem only_focus_gain_cancels (w : World) (a : Action) (id : TimerId) :
  reachable w ->
  a <> Tick ->
  pending id w ->
  ~ pending id (exec a w) ->
  exists E, a = Notify focus E /\ subscribed E w /\ handle w = Some id.
Proof.
  intros Hr Ha Hp Hgone.
  assert (Hblur : pending id (snd (_blur w))).
  { rewrite _blur_effect. unfold pending in *. simpl. rewrite map_app.
    apply in_or_app. now left. }
  unfold exec in Hgone. destruct a as [e|e|ev e|]; simpl in Hgone.
  - exfalso. apply Hgone. rewrite add_effect.
    destruct (indexOf e (tracked w) >=? 0)%Z; exact Hp.
  - exfalso. apply Hgone. rewrite remove_effect. simpl.
    assert (Hp' : pending id (after_remove_blur e w)).
    { unfold after_remove_blur.
      destruct (same_element e (focusedElement w)); [exact Hblur | exact Hp]. }
    destruct (indexOf e (tracked w) >? -1)%Z; exact Hp'.
  - destruct (reachable_subscribed_or_silent e w Hr) as [[Hs _]|Hnone].
    + destruct ev.
      * exists e. split; [reflexivity|]. split; [exact Hs|].
        rewrite (notify_focus_subscribed e w Hs), _focus_effect in Hgone.
        unfold pending in *. simpl in Hgone.
        destruct (handle w) as [h|]; [|contradiction].
        destruct (Nat.eq_dec id h) as [->|Hne]; [reflexivity|].
        exfalso. apply Hgone. now apply cleared_others_stay.
      * exfalso. apply Hgone. now rewrite (notify_blur_subscribed e w Hs).
    + exfalso. apply Hgone. rewrite dispatchEvent_unfold, Hnone. exact Hp.
  - contradiction.
Qed.

Lemma only_focus_gain_cancels_witness :
  exists E,
    Notify focus 1 = Notify focus E /\
    subscribed E (run [Add 1; Notify focus 1; Notify blur 1] newWorld) /\
    handle (run [Add 1; Notify focus 1; Notify blur 1] newWorld) = Some 0.
Proof.
  apply (only_focus_gain_cancels
           (run [Add 1; Notify focus 1; Notify blur 1] newWorld) (Notify focus 1) 0).
  - apply reachable_history.
  - discriminate.
  - vm_compute. auto.
  - vm_compute. intros [].
Defined.
